(** * remix-server-runtime/data.ts: calling a route's loader and action

    A shallow embedding of [packages/remix-server-runtime/data.ts] and the
    properties of its two entry points, [callRouteAction] and
    [callRouteLoader], of the two request transforms [stripIndexParam] and
    [stripDataParam], and of [extractData].

    Conventions of the embedding.
    - A JavaScript string is a [string] (a sequence of bytes).
    - A [URL] is kept in parsed form; its query is the list of name/value
      pairs that [url.searchParams] exposes, in order and with duplicates.
      [new URL(request.url)] and [url.href] convert between the text and
      this form, so the transforms work on the record directly.
    - An [async] function yields a [Completion]: it returns, throws, or stays
      pending because the handler it awaits never settles.
    - Every call of a handler is recorded in a trace of [Event]s, so that
      "is invoked" and "is invoked with this request" can be stated.
    - Objects are values: where the code updates a Response in place
      ([error.headers.set]) and throws it again, the embedding throws the
      updated value.
    - The text of a URL is not represented.  The code writes the query
      anew on every [searchParams.delete], so the text of [request.url]
      may change where the name/value pairs do not; what is stated about
      a URL is stated about its pairs.
    - Two calls into the platform can throw a TypeError, and do so in the
      embedding: [headers.set] on a Response whose headers are immutable,
      and [new Request(url.href, request)] on a request the constructor
      refuses as its init.  A [Request] is a request that is accepted (its
      body, if any, is still unread); a [RequestObject] is what an entry
      point may be handed, accepted or not. *)

From Stdlib Require Import List String Ascii Bool Arith Lia Permutation.
Import ListNotations.
Local Open Scope string_scope.

Set Implicit Arguments.

(** ** Characters and strings *)

Definition dquote : string := String (ascii_of_nat 34) EmptyString.

Definition in_range (lo hi : nat) (c : ascii) : bool :=
  let n := nat_of_ascii c in (Nat.leb lo n && Nat.leb n hi)%bool.

Definition is_upper (c : ascii) : bool := in_range 65 90 c.
Definition is_lower (c : ascii) : bool := in_range 97 122 c.
Definition is_digit (c : ascii) : bool := in_range 48 57 c.

(** The class [\w] of a regular expression without flags: [[A-Za-z0-9_]]. *)
Definition is_word_char (c : ascii) : bool :=
  (is_upper c || is_lower c || is_digit c || Nat.eqb (nat_of_ascii c) 95)%bool.

Definition lower_char (c : ascii) : ascii :=
  if is_upper c then ascii_of_nat (nat_of_ascii c + 32) else c.

Fixpoint lowercase (s : string) : string :=
  match s with
  | EmptyString => EmptyString
  | String c s' => String (lower_char c) (lowercase s')
  end.

(** JavaScript truthiness of a string: every string but the empty one. *)
Definition truthy (s : string) : bool :=
  match s with
  | EmptyString => false
  | String _ _ => true
  end.

Fixpoint strip_prefix (p s : string) : option string :=
  match p, s with
  | EmptyString, _ => Some s
  | String a p', String b s' => if Ascii.eqb a b then strip_prefix p' s' else None
  | String _ _, EmptyString => None
  end.

Definition first_char (s : string) : option ascii :=
  match s with
  | EmptyString => None
  | String c _ => Some c
  end.

Fixpoint last_char (s : string) : option ascii :=
  match s with
  | EmptyString => None
  | String c EmptyString => Some c
  | String _ s' => last_char s'
  end.

(** ** Headers (the Fetch [Headers] class)

    Names are matched without regard to ASCII case.  [get] joins the values
    of all headers of that name with a comma and a space; [set] overwrites
    the first header of that name and drops the others, or appends. *)

Definition Headers := list (string * string).

Definition same_name (a b : string) : bool := String.eqb (lowercase a) (lowercase b).

Fixpoint join (sep : string) (l : list string) : string :=
  match l with
  | [] => ""
  | [x] => x
  | x :: tl => x ++ sep ++ join sep tl
  end.

Definition Headers_get (name : string) (hs : Headers) : option string :=
  match map snd (filter (fun h => same_name (fst h) name) hs) with
  | [] => None
  | vs => Some (join ", " vs)
  end.

Definition Headers_delete (name : string) (hs : Headers) : Headers :=
  filter (fun h => negb (same_name (fst h) name)) hs.

Fixpoint Headers_set (name value : string) (hs : Headers) : Headers :=
  match hs with
  | [] => [(name, value)]
  | (n, v) :: tl =>
      if same_name n name then (n, value) :: Headers_delete name tl
      else (n, v) :: Headers_set name value tl
  end.

(** ** URLSearchParams, URL, Request, Response *)

Definition SearchParams := list (string * string).

Definition getAll (name : string) (sp : SearchParams) : list string :=
  map snd (filter (fun p => String.eqb (fst p) name) sp).

Definition delete (name : string) (sp : SearchParams) : SearchParams :=
  filter (fun p => negb (String.eqb (fst p) name)) sp.

Definition append (name value : string) (sp : SearchParams) : SearchParams :=
  (sp ++ [(name, value)])%list.

Record URL := mkURL {
  url_base : string;             (* scheme, authority and path *)
  searchParams : SearchParams;
  url_hash : string
}.

Definition set_searchParams (u : URL) (sp : SearchParams) : URL :=
  {| url_base := url_base u; searchParams := sp; url_hash := url_hash u |}.

Record Request := mkRequest {
  req_url : URL;
  req_method : string;
  req_headers : Headers;
  req_body : option string
}.

(** [new Request(url.href, request)]: the URL of the first argument, every
    other property read from the second. *)
Definition new_Request (u : URL) (init : Request) : Request :=
  {| req_url := u;
     req_method := req_method init;
     req_headers := req_headers init;
     req_body := req_body init |}.

(** [immutable_headers] is the guard of the headers: a Response built with
    [new Response] can have its headers changed, the result of [fetch] and
    [Response.error()] cannot. *)
Record Response := mkResponse {
  status : nat;
  headers : Headers;
  body : option string;
  immutable_headers : bool
}.

(** [new Response(body, { status })] *)
Definition new_Response (b : option string) (st : nat) : Response :=
  {| status := st; headers := []; body := b; immutable_headers := false |}.

(** The response after [response.headers.set(name, value)], when the call
    goes through (see [headers_set] for the call itself). *)
Definition set_header (name value : string) (r : Response) : Response :=
  {| status := status r;
     headers := Headers_set name value (headers r);
     body := body r;
     immutable_headers := immutable_headers r |}.

(** The Request object an entry point is handed.  [refused_as_init] tells
    whether [new Request(url, request)] refuses it as its second argument
    and throws a TypeError, as it does when the body of the request was
    already read or is locked. *)
Record RequestObject := mkRequestObject {
  as_request :> Request;
  refused_as_init : bool
}.

Definition intact (r : Request) : RequestObject :=
  {| as_request := r; refused_as_init := false |}.

#[warning="-ambiguous-paths"]
Coercion intact : Request >-> RequestObject.

(** ** stripIndexParam and stripDataParam *)

Definition stripIndexParam (request : Request) : Request :=
  let url := req_url request in
  let indexValues := getAll "index" (searchParams url) in
  let url := set_searchParams url (delete "index" (searchParams url)) in
  let indexValuesToKeep :=
    fold_left
      (fun kept indexValue => if truthy indexValue then (kept ++ [indexValue])%list else kept)
      indexValues [] in
  let url :=
    fold_left
      (fun u toKeep => set_searchParams u (append "index" toKeep (searchParams u)))
      indexValuesToKeep url in
  new_Request url request.

Definition stripDataParam (request : Request) : Request :=
  let url := req_url request in
  let url := set_searchParams url (delete "_data" (searchParams url)) in
  new_Request url request.

(** ** extractData

    [/\bapplication\/json\b/.test(contentType)]: the literal may start at
    any position of the subject, with a word boundary on both sides.  [\b]
    holds between two neighbouring positions when exactly one of them holds
    a word character; the outside of the subject counts as none. *)

Definition is_word (c : option ascii) : bool :=
  match c with
  | Some c => is_word_char c
  | None => false
  end.

Definition word_boundary (prev next : option ascii) : bool :=
  xorb (is_word prev) (is_word next).

Definition last_char_after (prev : option ascii) (lit : string) : option ascii :=
  match last_char lit with
  | Some c => Some c
  | None => prev
  end.

(** The pattern [\b lit \b] matched at the start of [s], the character in
    front of [s] being [prev]. *)
Definition match_here (lit : string) (prev : option ascii) (s : string) : bool :=
  word_boundary prev (first_char s) &&
  match strip_prefix lit s with
  | Some rest => word_boundary (last_char_after prev lit) (first_char rest)
  | None => false
  end.

Fixpoint search (lit : string) (prev : option ascii) (s : string) : bool :=
  match_here lit prev s ||
  match s with
  | EmptyString => false
  | String c s' => search lit (Some c) s'
  end.

Definition application_json : string := "application/json".

Definition regex_test (contentType : string) : bool :=
  search application_json None contentType.

(** The two ways [extractData] reads the body: [response.json()] and
    [response.text()]. *)
Inductive BodyRead :=
| response_json (r : Response)
| response_text (r : Response).

Definition extractData (response : Response) : BodyRead :=
  let contentType := Headers_get "Content-Type" (headers response) in
  if match contentType with
     | Some ct => truthy ct && regex_test ct
     | None => false
     end
  then response_json response
  else response_text response.

(** "Contains [w] as a whole word", in the words of the specification: an
    occurrence of [w] with no word character right before it and none right
    after it. *)
Definition contains_whole_word (w s : string) : Prop :=
  exists pre post,
    s = pre ++ w ++ post /\
    is_word (last_char pre) = false /\
    is_word (first_char post) = false.

(** ** Values, completions and handlers *)

Inductive Value :=
| VUndefined
| VNull
| VBoolean (b : bool)
| VString (s : string)
| VObject (repr : string)
| VError (message : string)
| VResponse (r : Response).

(** Modelled from the spec: [isResponse] of [./responses], which this file
    imports and uses as a type guard ([error.headers] is read after it on a
    value of type [unknown]); it tells whether a value "is a Response".
    [asResponse] is the guard together with the narrowing. *)
Definition asResponse (v : Value) : option Response :=
  match v with
  | VResponse r => Some r
  | _ => None
  end.

Definition isResponse (v : Value) : bool :=
  match asResponse v with
  | Some _ => true
  | None => false
  end.

Definition is_undefined (v : Value) : bool :=
  match v with
  | VUndefined => true
  | _ => false
  end.

(** How a promise (or the call that makes it) ends. *)
Inductive Completion (A : Type) :=
| Return (a : A)
| Throw (e : Value)
| Pending.

Arguments Throw {A} e.
Arguments Pending {A}.

Record DataFunctionArgs := mkArgs {
  request : Request;
  context : Value;
  params : list (string * string)
}.

Definition DataFunction := DataFunctionArgs -> Completion Value.

Record RouteModule := mkModule {
  action : option DataFunction;
  loader : option DataFunction
}.

Record ServerRoute := mkRoute {
  id : string;
  module : RouteModule
}.

(** ** Calls with a trace *)

Inductive HandlerName := the_action | the_loader.

Inductive Event :=
| Called (h : HandlerName) (args : DataFunctionArgs)
| CalledUndefined (h : HandlerName).

Definition Run (A : Type) : Type := (list Event * Completion A)%type.

Definition ret {A} (a : A) : Run A := ([], Return a).

Definition throw {A} (e : Value) : Run A := ([], Throw e).

Definition bind {A B} (m : Run A) (k : A -> Run B) : Run B :=
  match snd m with
  | Return a => ((fst m ++ fst (k a))%list, snd (k a))
  | Throw e => (fst m, Throw e)
  | Pending => (fst m, Pending)
  end.

(** [try { m } catch (error) { handler error }] *)
Definition try_catch {A} (m : Run A) (handler : Value -> Run A) : Run A :=
  match snd m with
  | Throw e => ((fst m ++ fst (handler e))%list, snd (handler e))
  | _ => m
  end.

Notation "x <- m ;; k" := (bind m (fun x => k))
  (at level 61, m at next level, right associativity).

(** [await f(args)]: calling [undefined] throws a TypeError. *)
Definition call (h : HandlerName) (f : option DataFunction)
    (args : DataFunctionArgs) : Run Value :=
  match f with
  | Some fn => ([Called h args], fn args)
  | None => ([CalledUndefined h], Throw (VError "TypeError: undefined is not a function"))
  end.

(** [!f] for an optional function. *)
Definition absent {A} (f : option A) : bool :=
  match f with
  | Some _ => false
  | None => true
  end.

Definition immutable_TypeError : Value := VError "TypeError: immutable".

Definition init_TypeError : Value :=
  VError "TypeError: Cannot construct a Request with a Request object that has already been used.".

(** The call [response.headers.set(name, value)]: a TypeError when the
    headers are immutable. *)
Definition headers_set (name value : string) (r : Response) : Run Response :=
  if immutable_headers r then throw immutable_TypeError
  else ret (set_header name value r).

(** What the first [new Request(url.href, request)] does with the request
    it is given before it builds anything: a TypeError when it refuses
    it.  The request it builds is new, so the second one goes through. *)
Definition Request_init (request : RequestObject) : Run Request :=
  if refused_as_init request then throw init_TypeError
  else ret (as_request request).

(** Instances of the imported helpers, used by the concrete examples:
    [json] builds a 200 response with a JSON content type, and a redirect
    is a response with one of the five redirect status codes. *)
Definition sample_json (v : Value) : Response :=
  {| status := 200;
     headers := [("Content-Type", "application/json; charset=utf-8")];
     body := Some match v with
                  | VNull => "null"
                  | VBoolean true => "true"
                  | VBoolean false => "false"
                  | VString s => dquote ++ s ++ dquote
                  | VObject repr => repr
                  | _ => "{}"
                  end;
     immutable_headers := false |}.

Definition sample_isRedirectResponse (r : Response) : bool :=
  existsb (Nat.eqb (status r)) [301; 302; 303; 307; 308].

Definition sample_href (u : URL) : string :=
  url_base u ++
  match searchParams u with
  | [] => ""
  | sp => "?" ++ join "&" (map (fun p => fst p ++ "=" ++ snd p) sp)
  end ++ url_hash u.

(** ** callRouteAction and callRouteLoader *)

Section EntryPoints.

(** [json] and [isRedirectResponse] of [./responses], and the serializer
    behind [request.url], are used as given. *)
Variable json : Value -> Response.
Variable isRedirectResponse : Response -> bool.
Variable href : URL -> string.

(** The [catch] block shared by the two entry points. *)
Definition on_error (error : Value) : Run Value :=
  match asResponse error with
  | None => throw error
  | Some response =>
      if negb (isRedirectResponse response)
      then
        marked <- headers_set "X-Remix-Catch" "yes" response ;;
        throw (VResponse marked)
      else ret error
  end.

Definition callRouteAction (loadContext : Value) (route : ServerRoute)
    (params : list (string * string)) (request : RequestObject) : Run Value :=
  let action := action (module route) in
  if absent action then
    let response := new_Response None 405 in
    response <- headers_set "X-Remix-Catch" "yes" response ;;
    ret (VResponse response)
  else
    result <-
      try_catch
        (request <- Request_init request ;;
         call the_action action
           {| request := stripDataParam (stripIndexParam request);
              context := loadContext;
              params := params |})
        on_error ;;
    if is_undefined result then
      throw (VError
        ("You defined an action for route " ++ dquote ++ id route ++ dquote ++
         " but didn't return " ++
         "anything from your `action` function. Please return a value or `null`."))
    else
      if isResponse result then ret result else ret (VResponse (json result)).

Definition callRouteLoader (loadContext : Value) (route : ServerRoute)
    (params : list (string * string)) (request : RequestObject) : Run Value :=
  let loader := loader (module route) in
  if absent loader then
    throw (VError
      ("You made a " ++ req_method request ++ " request to " ++
       href (req_url request) ++ " but did not provide " ++
       "a default component or `loader` for route " ++ dquote ++ id route ++
       dquote ++ ", " ++ "so there is no way to handle the request."))
  else
    result <-
      try_catch
        (request <- Request_init request ;;
         call the_loader loader
           {| request := stripDataParam (stripIndexParam request);
              context := loadContext;
              params := params |})
        on_error ;;
    if is_undefined result then
      throw (VError
        ("You defined a loader for route " ++ dquote ++ id route ++ dquote ++
         " but didn't return " ++
         "anything from your `loader` function. Please return a value or `null`."))
    else
      if isResponse result then ret result else ret (VResponse (json result)).

End EntryPoints.

(** The two entry points and their handlers, indexed by the handler's name,
    so that a property of both is stated once: [entry_point_on] on any
    request object, [entry_point] on a request that is accepted. *)
Definition entry_point_on (json : Value -> Response)
    (isRedirectResponse : Response -> bool) (href : URL -> string)
    (h : HandlerName) : Value -> ServerRoute -> list (string * string) ->
                        RequestObject -> Run Value :=
  match h with
  | the_action => callRouteAction json isRedirectResponse
  | the_loader => callRouteLoader json isRedirectResponse href
  end.

Definition entry_point (json : Value -> Response)
    (isRedirectResponse : Response -> bool) (href : URL -> string)
    (h : HandlerName) (loadContext : Value) (route : ServerRoute)
    (ps : list (string * string)) (req : Request) : Run Value :=
  entry_point_on json isRedirectResponse href h loadContext route ps (intact req).

Definition handler_of (h : HandlerName) (route : ServerRoute) : option DataFunction :=
  match h with
  | the_action => action (module route)
  | the_loader => loader (module route)
  end.

(** The arguments the handler is called with. *)
Definition handler_args (loadContext : Value) (ps : list (string * string))
    (req : Request) : DataFunctionArgs :=
  {| request := stripDataParam (stripIndexParam req);
     context := loadContext;
     params := ps |}.

(** A message names a route when it quotes the route's id. *)
Definition names_route (message route_id : string) : Prop :=
  exists pre post, message = pre ++ dquote ++ route_id ++ dquote ++ post.

Definition other_than (name : string) (p : string * string) : bool :=
  negb (String.eqb (fst p) name).

(** Concrete requests and routes for the examples. *)
Definition example_url : URL :=
  {| url_base := "http://localhost/items";
     searchParams := [("index", ""); ("q", "tea"); ("index", "2");
                      ("_data", "routes/items"); ("index", "1"); ("q", "pot")];
     url_hash := "" |}.

Definition get_request : Request :=
  {| req_url := example_url; req_method := "GET";
     req_headers := [("Accept", "*/*")]; req_body := None |}.

Definition post_request : Request :=
  {| req_url := example_url; req_method := "POST";
     req_headers := [("Content-Type", "text/plain")]; req_body := Some "x" |}.

Definition route_of (fn : option DataFunction) : ServerRoute :=
  {| id := "routes/items"; module := {| action := fn; loader := fn |} |}.

Definition returns (v : Value) : DataFunction := fun _ => Return v.
Definition throws (e : Value) : DataFunction := fun _ => Throw e.

Definition teapot : Response :=
  {| status := 418; headers := [("x-remix-catch", "no"); ("X-Remix-Catch", "maybe")];
     body := Some "short and stout"; immutable_headers := false |}.

Definition moved : Response :=
  {| status := 302; headers := [("Location", "/login")]; body := None;
     immutable_headers := false |}.


(** [post_request] after its body was read. *)
Definition used_post_request : RequestObject :=
  {| as_request := post_request; refused_as_init := true |}.

(** The message of the error thrown when a handler resolves to
    [undefined]. *)
Definition undefined_message (h : HandlerName) (route : ServerRoute) : string :=
  match h with
  | the_action =>
      "You defined an action for route " ++ dquote ++ id route ++ dquote ++
      " but didn't return " ++
      "anything from your `action` function. Please return a value or `null`."
  | the_loader =>
      "You defined a loader for route " ++ dquote ++ id route ++ dquote ++
      " but didn't return " ++
      "anything from your `loader` function. Please return a value or `null`."
  end.

(** What an entry point makes of the way its handler ended. *)
Definition settle (json : Value -> Response)
    (isRedirectResponse : Response -> bool) (h : HandlerName)
    (route : ServerRoute) (c : Completion Value) : Completion Value :=
  match c with
  | Return res =>
      if is_undefined res then Throw (VError (undefined_message h route))
      else Return (if isResponse res then res else VResponse (json res))
  | Throw e =>
      match asResponse e with
      | None => Throw e
      | Some r =>
          if isRedirectResponse r then Return e
          else if immutable_headers r then Throw immutable_TypeError
          else Throw (VResponse (set_header "X-Remix-Catch" "yes" r))
      end
  | Pending => Pending
  end.

(** An "index" parameter with an empty value: what [stripIndexParam]
    drops. *)
Definition empty_index (p : string * string) : bool :=
  String.eqb (fst p) "index" && negb (truthy (snd p)).

(** A message mentions a text when the text occurs in it. *)
Definition mentions (message part : string) : Prop :=
  exists pre post, message = pre ++ part ++ post.

Fixpoint all_chars (f : ascii -> bool) (s : string) : bool :=
  match s with
  | EmptyString => true
  | String c s' => f c && all_chars f s'
  end.

(** ** The request transforms *)

Lemma fold_keep (l kept : list string) :
  fold_left
    (fun kept indexValue => if truthy indexValue then (kept ++ [indexValue])%list else kept)
    l kept
  = (kept ++ filter truthy l)%list.
Proof.
  revert kept.
  induction l as [|v l IH]; intros kept; simpl.
  - now rewrite app_nil_r.
  - rewrite IH. destruct (truthy v); [|reflexivity].
    now rewrite <- app_assoc.
Qed.

Lemma fold_append (name : string) (l : list string) (u : URL) :
  fold_left (fun u toKeep => set_searchParams u (append name toKeep (searchParams u))) l u
  = set_searchParams u (searchParams u ++ map (pair name) l)%list.
Proof.
  revert u.
  induction l as [|v l IH]; intros u; simpl.
  - rewrite app_nil_r. now destruct u.
  - rewrite IH. unfold set_searchParams, append; simpl.
    now rewrite <- app_assoc.
Qed.

Lemma stripIndexParam_searchParams (req : Request) :
  searchParams (req_url (stripIndexParam req))
  = (delete "index" (searchParams (req_url req))
     ++ map (pair "index") (filter truthy (getAll "index" (searchParams (req_url req)))))%list.
Proof.
  unfold stripIndexParam. rewrite fold_keep, fold_append. reflexivity.
Qed.

Lemma stripDataParam_searchParams (req : Request) :
  searchParams (req_url (stripDataParam req)) = delete "_data" (searchParams (req_url req)).
Proof. reflexivity. Qed.

Lemma getAll_app (name : string) (a b : SearchParams) :
  getAll name (a ++ b)%list = (getAll name a ++ getAll name b)%list.
Proof. unfold getAll. now rewrite filter_app, map_app. Qed.

Lemma getAll_delete_same (name : string) (sp : SearchParams) :
  getAll name (delete name sp) = [].
Proof.
  unfold getAll, delete.
  induction sp as [|[k v] sp IH]; simpl; [reflexivity|].
  destruct (String.eqb k name) eqn:E; simpl; [assumption|].
  now rewrite E.
Qed.

Lemma getAll_delete_other (name other : string) (sp : SearchParams) :
  name <> other -> getAll name (delete other sp) = getAll name sp.
Proof.
  intros D. unfold getAll, delete.
  induction sp as [|[k v] sp IH]; simpl; [reflexivity|].
  destruct (String.eqb_spec k other) as [->|N]; simpl.
  - destruct (String.eqb_spec other name) as [e|_]; [congruence | assumption].
  - destruct (String.eqb k name); simpl; now rewrite IH.
Qed.

Lemma getAll_pairs (name : string) (l : list string) :
  getAll name (map (pair name) l) = l.
Proof.
  unfold getAll.
  induction l as [|v l IH]; simpl; [reflexivity|].
  rewrite String.eqb_refl; simpl. now rewrite IH.
Qed.

Lemma getAll_nil_not_In (name : string) (sp : SearchParams) :
  getAll name sp = [] -> forall v, ~ In (name, v) sp.
Proof.
  unfold getAll.
  induction sp as [|[k w] sp IH]; simpl; intros E v; [tauto|].
  destruct (String.eqb_spec k name) as [->|N]; simpl in E; [discriminate|].
  intros [H|H]; [congruence | exact (IH E v H)].
Qed.

Lemma In_getAll (name v : string) (sp : SearchParams) :
  In (name, v) sp -> In v (getAll name sp).
Proof.
  intros H. unfold getAll.
  apply in_map_iff. exists (name, v). split; [reflexivity|].
  apply filter_In. split; [assumption|]. simpl. apply String.eqb_refl.
Qed.

Lemma normalized_request (req : Request) :
  let sp := searchParams (req_url (stripDataParam (stripIndexParam req))) in
  (forall v, ~ In ("_data", v) sp) /\
  ~ In ("index", "") sp /\
  getAll "index" sp = filter truthy (getAll "index" (searchParams (req_url req))).
Proof.
  intros sp.
  assert (I : getAll "index" sp
              = filter truthy (getAll "index" (searchParams (req_url req)))).
  { subst sp. rewrite stripDataParam_searchParams, stripIndexParam_searchParams.
    rewrite getAll_delete_other by discriminate.
    now rewrite getAll_app, getAll_delete_same, getAll_pairs. }
  split; [|split]; [| |exact I].
  - apply getAll_nil_not_In. subst sp.
    rewrite stripDataParam_searchParams. apply getAll_delete_same.
  - intros H. apply In_getAll in H. rewrite I in H.
    apply filter_In in H. destruct H as [_ H]. discriminate H.
Qed.

Lemma filter_other_delete (name : string) (sp : SearchParams) :
  filter (other_than name) (delete name sp) = filter (other_than name) sp.
Proof.
  unfold delete, other_than.
  induction sp as [|[k v] sp IH]; simpl; [reflexivity|].
  destruct (String.eqb k name) eqn:E; simpl; [assumption|].
  rewrite E. simpl. now rewrite IH.
Qed.

Lemma filter_other_pairs (name : string) (l : list string) :
  filter (other_than name) (map (pair name) l) = [].
Proof.
  unfold other_than.
  induction l as [|v l IH]; simpl; [reflexivity|].
  now rewrite String.eqb_refl.
Qed.

(** ** Headers *)

Lemma same_name_refl (a : string) : same_name a a = true.
Proof. apply String.eqb_refl. Qed.

Lemma filter_same_delete (name : string) (hs : Headers) :
  filter (fun h => same_name (fst h) name) (Headers_delete name hs) = [].
Proof.
  unfold Headers_delete.
  induction hs as [|[n v] hs IH]; simpl; [reflexivity|].
  destruct (same_name n name) eqn:E; simpl; [assumption|].
  now rewrite E.
Qed.

Lemma Headers_get_set (name value : string) (hs : Headers) :
  Headers_get name (Headers_set name value hs) = Some value.
Proof.
  unfold Headers_get.
  induction hs as [|[n v] hs IH]; simpl.
  - now rewrite same_name_refl.
  - destruct (same_name n name) eqn:E; simpl; rewrite E.
    + now rewrite filter_same_delete.
    + exact IH.
Qed.



(** ** The entry points, case by case *)

Section Cases.

Variable json : Value -> Response.
Variable isRedirectResponse : Response -> bool.
Variable href : URL -> string.

Local Abbreviation run := (entry_point json isRedirectResponse href).

Lemma entry_present h ctx route ps req fn :
  handler_of h route = Some fn ->
  run h ctx route ps req
  = ([Called h (handler_args ctx ps req)],
     settle json isRedirectResponse h route (fn (handler_args ctx ps req))).
Proof.
  intros P. unfold entry_point.
  destruct h; simpl in *;
    [unfold callRouteAction | unfold callRouteLoader];
    rewrite P; simpl;
    unfold bind, try_catch, call, on_error, headers_set, handler_args; simpl;
    (destruct (fn _) as [res|e|]; simpl;
     [ destruct res; reflexivity
     | destruct e; simpl; try reflexivity;
       destruct (isRedirectResponse r); simpl; try reflexivity;
       destruct (immutable_headers r); reflexivity
     | reflexivity ]).
Qed.

Lemma entry_absent_trace h ctx route ps req :
  handler_of h route = None -> fst (run h ctx route ps req) = [].
Proof.
  intros A. unfold entry_point.
  destruct h; simpl in *;
    [unfold callRouteAction | unfold callRouteLoader];
    rewrite A; reflexivity.
Qed.

Lemma action_absent ctx route ps req :
  action (module route) = None ->
  run the_action ctx route ps req
  = ([], Return (VResponse (set_header "X-Remix-Catch" "yes" (new_Response None 405)))).
Proof.
  intros A. unfold entry_point. simpl. unfold callRouteAction. now rewrite A.
Qed.

Lemma loader_absent ctx route ps req :
  loader (module route) = None ->
  exists message, run the_loader ctx route ps req = ([], Throw (VError message)).
Proof.
  intros A. unfold entry_point. simpl. unfold callRouteLoader. rewrite A. simpl.
  eexists. reflexivity.
Qed.

Lemma entry_on_accepted h ctx route ps (request : RequestObject) :
  refused_as_init request = false ->
  entry_point_on json isRedirectResponse href h ctx route ps request
  = run h ctx route ps (as_request request).
Proof.
  destruct request as [req refused]. simpl. now intros ->.
Qed.

Lemma entry_on_refused h ctx route ps (request : RequestObject) fn :
  handler_of h route = Some fn ->
  refused_as_init request = true ->
  entry_point_on json isRedirectResponse href h ctx route ps request
  = ([], Throw init_TypeError).
Proof.
  intros P R.
  destruct h; simpl in *;
    [unfold callRouteAction | unfold callRouteLoader];
    rewrite P; simpl;
    unfold bind, try_catch, Request_init; rewrite R; reflexivity.
Qed.

Lemma entry_trace h ctx route ps req :
  fst (run h ctx route ps req)
  = match handler_of h route with
    | Some _ => [Called h (handler_args ctx ps req)]
    | None => []
    end.
Proof.
  destruct (handler_of h route) as [fn|] eqn:P.
  - now rewrite (entry_present _ _ _ _ _ P).
  - now apply entry_absent_trace.
Qed.

End Cases.

(** ** The content-type test *)

Lemma strip_prefix_spec (p s rest : string) :
  strip_prefix p s = Some rest <-> s = p ++ rest.
Proof.
  revert s.
  induction p as [|a p IH]; intros s; simpl.
  - split; congruence.
  - destruct s as [|b s]; [split; discriminate|].
    destruct (Ascii.eqb_spec a b) as [->|N].
    + rewrite IH. split; congruence.
    + split; [discriminate | congruence].
Qed.

Lemma first_char_app (w s : string) :
  is_word (first_char w) = true -> first_char (w ++ s) = first_char w.
Proof. destruct w; [discriminate | reflexivity]. Qed.

Lemma last_char_after_word (prev : option ascii) (w : string) :
  is_word (last_char w) = true -> last_char_after prev w = last_char w.
Proof.
  unfold last_char_after. destruct (last_char w); [reflexivity | discriminate].
Qed.

Lemma last_char_cons (c : ascii) (s : string) :
  last_char (String c s) = match last_char s with Some d => Some d | None => Some c end.
Proof.
  revert c.
  induction s as [|a s IH]; intros c; [reflexivity|].
  change (last_char (String c (String a s))) with (last_char (String a s)).
  rewrite IH. now destruct (last_char s).
Qed.

Lemma last_char_after_cons (prev : option ascii) (c : ascii) (s : string) :
  last_char_after prev (String c s) = last_char_after (Some c) s.
Proof.
  unfold last_char_after. rewrite last_char_cons.
  now destruct (last_char s).
Qed.

Lemma search_unfold (w : string) (prev : option ascii) (s : string) :
  search w prev s
  = match_here w prev s ||
    match s with
    | EmptyString => false
    | String c s' => search w (Some c) s'
    end.
Proof. destruct s; reflexivity. Qed.

Section WholeWord.

Variable w : string.
Hypothesis starts_with_word_char : is_word (first_char w) = true.
Hypothesis ends_with_word_char : is_word (last_char w) = true.

Lemma match_here_spec (prev : option ascii) (s : string) :
  match_here w prev s = true <->
  is_word prev = false /\
  exists post, s = w ++ post /\ is_word (first_char post) = false.
Proof.
  unfold match_here, word_boundary.
  destruct (strip_prefix w s) as [rest|] eqn:E.
  - apply strip_prefix_spec in E. subst s.
    rewrite first_char_app, last_char_after_word by assumption.
    rewrite starts_with_word_char, ends_with_word_char.
    split.
    + intros H. apply andb_true_iff in H. destruct H as [H1 H2].
      split; [now destruct (is_word prev)|].
      exists rest. split; [reflexivity|].
      now destruct (is_word (first_char rest)).
    + intros [H1 [post [E H2]]].
      assert (rest = post) as ->.
      { apply strip_prefix_spec in E.
        rewrite (proj2 (strip_prefix_spec w (w ++ rest) rest) eq_refl) in E.
        congruence. }
      now rewrite H1, H2.
  - rewrite andb_false_r. split; [discriminate|].
    intros [_ [post [E' _]]]. apply strip_prefix_spec in E'. congruence.
Qed.

Lemma search_spec (prev : option ascii) (s : string) :
  search w prev s = true <->
  exists pre post,
    s = pre ++ w ++ post /\
    is_word (last_char_after prev pre) = false /\
    is_word (first_char post) = false.
Proof.
  split.
  - revert prev.
    induction s as [|c s IH]; intros prev H;
      rewrite search_unfold in H; apply orb_true_iff in H;
      destruct H as [H|H]; try discriminate.
    + apply match_here_spec in H. destruct H as [H1 [post [E H2]]].
      exists "", post. auto.
    + apply match_here_spec in H. destruct H as [H1 [post [E H2]]].
      exists "", post. auto.
    + destruct (IH _ H) as [pre [post [E [H1 H2]]]].
      exists (String c pre), post. rewrite last_char_after_cons.
      subst s. auto.
  - intros [pre [post [-> [H1 H2]]]].
    revert prev H1.
    induction pre as [|c pre IH]; intros prev H1;
      rewrite search_unfold; apply orb_true_iff.
    + left. apply match_here_spec. split; [exact H1|].
      exists post. auto.
    + right. simpl. apply IH. now rewrite <- (last_char_after_cons prev).
Qed.

End WholeWord.

Lemma regex_test_spec (contentType : string) :
  regex_test contentType = true <-> contains_whole_word application_json contentType.
Proof.
  unfold regex_test, contains_whole_word.
  rewrite search_spec by reflexivity.
  assert (L : forall pre, last_char_after None pre = last_char pre).
  { intros pre. unfold last_char_after. now destruct (last_char pre). }
  split; intros [pre [post H]]; exists pre, post;
    [rewrite <- L | rewrite L]; exact H.
Qed.

(** ** Properties of the entry points *)

Section Claims.

Variable json : Value -> Response.
Variable isRedirectResponse : Response -> bool.
Variable href : URL -> string.

Local Abbreviation run := (entry_point json isRedirectResponse href).

(** C1. Whenever [callRouteAction] or [callRouteLoader] returns normally,
    the value returned is a Response; and when the handler resolved to
    [res], that value is [res] itself if [res] is a Response and
    [json res] otherwise. *)
Theorem returned_value_is_response h ctx route ps req v :
  snd (run h ctx route ps req) = Return v ->
  isResponse v = true /\
  forall fn res,
    handler_of h route = Some fn ->
    fn (handler_args ctx ps req) = Return res ->
    v = if isResponse res then res else VResponse (json res).
Proof.
  destruct (handler_of h route) as [fn|] eqn:P.
  - rewrite (entry_present json isRedirectResponse href _ _ _ _ _ P).
    simpl. destruct (fn (handler_args ctx ps req)) as [res|e|] eqn:F; simpl.
    + destruct (is_undefined res); [discriminate|].
      intros [= <-]. split.
      * now destruct (isResponse res) eqn:R.
      * intros fn' res' [= <-] F'. rewrite F in F'. now injection F' as ->.
    + destruct (asResponse e) as [r|] eqn:R; [|discriminate].
      destruct (isRedirectResponse r);
        [|destruct (immutable_headers r); discriminate].
      intros [= <-]. split.
      * unfold isResponse. now rewrite R.
      * intros fn' res' [= <-] F'. rewrite F in F'. discriminate.
    + discriminate.
  - destruct h; simpl in P.
    + rewrite (action_absent json isRedirectResponse href _ _ _ _ P).
      intros [= <-]. split; [reflexivity | discriminate].
    + destruct (loader_absent json isRedirectResponse href ctx route ps req P)
        as [message E].
      rewrite E. discriminate.
Qed.


(** C3. The request a handler is called with is the given request
    normalized: it has no "_data" parameter, no "index" parameter with an
    empty value, and its "index" values are the non-empty "index" values
    of the given request in their original order. *)
Theorem handler_request_normalized h ctx route ps req h' args :
  In (Called h' args) (fst (run h ctx route ps req)) ->
  let sp := searchParams (req_url (request args)) in
  (forall v, ~ In ("_data", v) sp) /\
  ~ In ("index", "") sp /\
  getAll "index" sp = filter truthy (getAll "index" (searchParams (req_url req))).
Proof.
  destruct (handler_of h route) as [fn|] eqn:P.
  - rewrite (entry_present json isRedirectResponse href _ _ _ _ _ P).
    simpl. intros [[= <- <-]|[]].
    apply normalized_request.
  - rewrite (entry_absent_trace json isRedirectResponse href _ _ _ _ _ P).
    intros [].
Qed.

(** C4, amended. Neither entry point looks at the request method: for
    every request object that [new Request] accepts as its init, whatever
    its method, [callRouteLoader] calls the loader exactly once when the
    route has one, and [callRouteAction] calls the action exactly once when
    the route has one. *)
Theorem handler_called_whatever_the_method h ctx route ps
    (request : RequestObject) :
  refused_as_init request = false ->
  fst (entry_point_on json isRedirectResponse href h ctx route ps request)
  = match handler_of h route with
    | Some _ => [Called h (handler_args ctx ps request)]
    | None => []
    end.
Proof.
  intros A. rewrite (entry_on_accepted json isRedirectResponse href _ _ _ _ _ A).
  apply entry_trace.
Qed.

(** C5, amended. When the action and the loader of a route are the same
    function and that function does not resolve to [undefined],
    [callRouteAction] and [callRouteLoader] end the same way on the same
    arguments. *)
Theorem same_handler_same_outcome ctx route ps req fn :
  action (module route) = Some fn ->
  loader (module route) = Some fn ->
  fn (handler_args ctx ps req) <> Return VUndefined ->
  snd (callRouteAction json isRedirectResponse ctx route ps req)
  = snd (callRouteLoader json isRedirectResponse href ctx route ps req).
Proof.
  intros A L U.
  change (snd (run the_action ctx route ps req) = snd (run the_loader ctx route ps req)).
  rewrite (entry_present json isRedirectResponse href the_action _ _ _ _ A).
  rewrite (entry_present json isRedirectResponse href the_loader _ _ _ _ L).
  simpl. destruct (fn (handler_args ctx ps req)) as [res|e|]; simpl; try reflexivity.
  destruct res; try reflexivity. now contradiction U.
Qed.


(** C7. An entry point calls nothing but its own handler, and only when
    the route has it: every event of a run is a call of a handler that is
    present, never a call of [undefined]. *)
Theorem absent_handler_never_called h ctx route ps req ev :
  In ev (fst (run h ctx route ps req)) ->
  (exists fn args, handler_of h route = Some fn /\ ev = Called h args) /\
  (forall h', ev <> CalledUndefined h').
Proof.
  rewrite entry_trace.
  destruct (handler_of h route) as [fn|]; [|intros []].
  intros [<-|[]]. split; [|discriminate].
  exists fn, (handler_args ctx ps req). auto.
Qed.

(** C9. When the handler is present and resolves to [undefined], the
    entry point throws an Error whose message names the route id; nothing
    is returned and [json] is not applied. *)
Theorem undefined_result_throws h ctx route ps req fn :
  handler_of h route = Some fn ->
  fn (handler_args ctx ps req) = Return VUndefined ->
  exists message,
    snd (run h ctx route ps req) = Throw (VError message) /\
    names_route message (id route).
Proof.
  intros P F.
  rewrite (entry_present json isRedirectResponse href _ _ _ _ _ P), F.
  simpl. exists (undefined_message h route). split; [reflexivity|].
  destruct h; simpl.
  - exists "You defined an action for route ". eexists. reflexivity.
  - exists "You defined a loader for route ". eexists. reflexivity.
Qed.

End Claims.

(** ** Properties of the helpers *)

(** C8. [stripIndexParam] leaves every parameter other than "index", and
    [stripDataParam] every parameter other than "_data", as it was, in key,
    value and order; both carry the method, the headers and the body (and
    the rest of the URL) over to the new request. *)
Theorem strip_params_frame (req : Request) :
  (filter (other_than "index") (searchParams (req_url (stripIndexParam req)))
     = filter (other_than "index") (searchParams (req_url req)) /\
   req_method (stripIndexParam req) = req_method req /\
   req_headers (stripIndexParam req) = req_headers req /\
   req_body (stripIndexParam req) = req_body req /\
   url_base (req_url (stripIndexParam req)) = url_base (req_url req) /\
   url_hash (req_url (stripIndexParam req)) = url_hash (req_url req)) /\
  (filter (other_than "_data") (searchParams (req_url (stripDataParam req)))
     = filter (other_than "_data") (searchParams (req_url req)) /\
   req_method (stripDataParam req) = req_method req /\
   req_headers (stripDataParam req) = req_headers req /\
   req_body (stripDataParam req) = req_body req /\
   url_base (req_url (stripDataParam req)) = url_base (req_url req) /\
   url_hash (req_url (stripDataParam req)) = url_hash (req_url req)).
Proof.
  split.
  - split.
    + rewrite stripIndexParam_searchParams, filter_app.
      rewrite filter_other_delete, filter_other_pairs. apply app_nil_r.
    + unfold stripIndexParam. rewrite fold_keep, fold_append.
      repeat split.
  - split.
    + rewrite stripDataParam_searchParams. apply filter_other_delete.
    + repeat split.
Qed.

(** C10. [extractData] reads the body as JSON exactly when the response
    has a Content-Type header that contains "application/json" as a whole
    word, and as text in every other case, a missing header included. *)
Theorem extractData_json_iff_content_type (response : Response) :
  (extractData response = response_json response <->
   exists ct,
     Headers_get "Content-Type" (headers response) = Some ct /\
     contains_whole_word "application/json" ct) /\
  (extractData response = response_text response <->
   ~ exists ct,
       Headers_get "Content-Type" (headers response) = Some ct /\
       contains_whole_word "application/json" ct).
Proof.
  unfold extractData.
  destruct (Headers_get "Content-Type" (headers response)) as [ct|].
  - assert (T : truthy ct && regex_test ct = regex_test ct).
    { now destruct ct. }
    rewrite T.
    pose proof (regex_test_spec ct) as S.
    destruct (regex_test ct).
    + assert (W : contains_whole_word application_json ct) by now apply S.
      split; split; try discriminate; try reflexivity.
      * intros _. exists ct. auto.
      * intros N. exfalso. apply N. exists ct. auto.
    + assert (W : ~ contains_whole_word application_json ct).
      { intros W. apply S in W. discriminate. }
      split; split; try discriminate; try reflexivity.
      * intros [ct' [[= <-] W']]. contradiction.
      * intros _ [ct' [[= <-] W']]. contradiction.
  - split; split; try discriminate; try reflexivity.
    + intros [ct [E _]]. discriminate.
    + intros _ [ct [E _]]. discriminate.
Qed.

(** ** The properties at concrete requests *)

Local Abbreviation sample_run :=
  (entry_point sample_json sample_isRedirectResponse sample_href).

(** The action resolves to a string: the entry point returns
    [json] of it. *)
Lemma returned_value_is_response_witness :
  isResponse (VResponse (sample_json (VString "hi"))) = true /\
  forall fn res,
    handler_of the_action (route_of (Some (returns (VString "hi")))) = Some fn ->
    fn (handler_args VNull [] post_request) = Return res ->
    VResponse (sample_json (VString "hi"))
    = if isResponse res then res else VResponse (sample_json res).
Proof.
  apply (returned_value_is_response sample_json sample_isRedirectResponse
           sample_href the_action VNull
           (route_of (Some (returns (VString "hi")))) [] post_request).
  reflexivity.
Defined.


Lemma handler_request_normalized_witness :
  let sp := searchParams (req_url (request (handler_args VNull [] get_request))) in
  (forall v, ~ In ("_data", v) sp) /\
  ~ In ("index", "") sp /\
  getAll "index" sp
  = filter truthy (getAll "index" (searchParams (req_url get_request))).
Proof.
  apply (handler_request_normalized sample_json sample_isRedirectResponse
           sample_href the_loader VNull (route_of (Some (returns VNull))) []
           get_request the_loader (handler_args VNull [] get_request)).
  left. reflexivity.
Defined.


(** The loader is called on a POST request whose body is unread. *)
Lemma handler_called_whatever_the_method_witness :
  fst (entry_point_on sample_json sample_isRedirectResponse sample_href
         the_loader VNull (route_of (Some (returns VNull))) [] post_request)
  = [Called the_loader (handler_args VNull [] post_request)].
Proof.
  apply (handler_called_whatever_the_method sample_json
           sample_isRedirectResponse sample_href the_loader VNull
           (route_of (Some (returns VNull))) [] post_request).
  reflexivity.
Defined.

(** C4 as stated fails: [callRouteLoader] calls the loader on a POST
    request and [callRouteAction] calls the action on a GET request. *)
Lemma method_is_not_checked :
  req_method post_request <> "GET" /\
  fst (callRouteLoader sample_json sample_isRedirectResponse sample_href
         VNull (route_of (Some (returns VNull))) [] post_request)
  = [Called the_loader (handler_args VNull [] post_request)] /\
  req_method get_request = "GET" /\
  fst (callRouteAction sample_json sample_isRedirectResponse
         VNull (route_of (Some (returns VNull))) [] get_request)
  = [Called the_action (handler_args VNull [] get_request)].
Proof.
  split; [discriminate|]. repeat split.
Qed.

(** C5 as stated fails: one function as action and as loader, resolving
    to [undefined], makes the two entry points throw different errors. *)
Lemma same_handler_different_error :
  let route := route_of (Some (returns VUndefined)) in
  action (module route) = loader (module route) /\
  action (module route) <> None /\
  snd (callRouteAction sample_json sample_isRedirectResponse
         VNull route [] get_request)
  <> snd (callRouteLoader sample_json sample_isRedirectResponse sample_href
            VNull route [] get_request).
Proof.
  simpl. split; [reflexivity|]. split; [discriminate|].
  vm_compute. discriminate.
Qed.

Lemma same_handler_same_outcome_witness :
  snd (callRouteAction sample_json sample_isRedirectResponse
         VNull (route_of (Some (throws (VResponse moved)))) [] post_request)
  = snd (callRouteLoader sample_json sample_isRedirectResponse sample_href
           VNull (route_of (Some (throws (VResponse moved)))) [] post_request).
Proof.
  apply (same_handler_same_outcome sample_json sample_isRedirectResponse
           sample_href VNull (route_of (Some (throws (VResponse moved)))) []
           post_request (fn := throws (VResponse moved)));
    [reflexivity | reflexivity | discriminate].
Defined.


Lemma absent_handler_never_called_witness :
  (exists fn args,
     handler_of the_action (route_of (Some (returns VNull))) = Some fn /\
     Called the_action (handler_args VNull [] post_request) = Called the_action args) /\
  (forall h',
     Called the_action (handler_args VNull [] post_request) <> CalledUndefined h').
Proof.
  apply (absent_handler_never_called sample_json sample_isRedirectResponse
           sample_href the_action VNull (route_of (Some (returns VNull))) []
           post_request).
  left. reflexivity.
Defined.

Lemma undefined_result_throws_witness :
  exists message,
    snd (sample_run the_loader VNull (route_of (Some (returns VUndefined))) []
           get_request) = Throw (VError message) /\
    names_route message "routes/items".
Proof.
  apply (undefined_result_throws sample_json sample_isRedirectResponse
           sample_href the_loader VNull
           (route_of (Some (returns VUndefined))) [] get_request
           (fn := returns VUndefined)); reflexivity.
Defined.

(** ** Further properties of the request transforms *)

Lemma delete_idem (name : string) (sp : SearchParams) :
  delete name (delete name sp) = delete name sp.
Proof.
  unfold delete.
  induction sp as [|[k v] sp IH]; simpl; [reflexivity|].
  destruct (String.eqb k name) eqn:E; simpl; [assumption|].
  rewrite E. simpl. now rewrite IH.
Qed.

Lemma delete_comm (a b : string) (sp : SearchParams) :
  delete a (delete b sp) = delete b (delete a sp).
Proof.
  unfold delete.
  induction sp as [|[k v] sp IH]; simpl; [reflexivity|].
  destruct (String.eqb k a) eqn:A, (String.eqb k b) eqn:B; simpl;
    rewrite ?A, ?B; simpl; now rewrite ?IH.
Qed.

Lemma delete_app (name : string) (a b : SearchParams) :
  delete name (a ++ b)%list = (delete name a ++ delete name b)%list.
Proof. apply filter_app. Qed.

Lemma delete_pairs_same (name : string) (l : list string) :
  delete name (map (pair name) l) = [].
Proof.
  unfold delete.
  induction l as [|v l IH]; simpl; [reflexivity|].
  now rewrite String.eqb_refl.
Qed.

Lemma delete_pairs_other (name other : string) (l : list string) :
  name <> other -> delete other (map (pair name) l) = map (pair name) l.
Proof.
  intros D. unfold delete.
  induction l as [|v l IH]; simpl; [reflexivity|].
  destruct (String.eqb_spec name other) as [e|_]; [contradiction|].
  simpl. now rewrite IH.
Qed.

Lemma delete_nothing (name : string) (sp : SearchParams) :
  getAll name sp = [] -> delete name sp = sp.
Proof.
  unfold getAll, delete.
  induction sp as [|[k v] sp IH]; simpl; [reflexivity|].
  destruct (String.eqb k name); simpl; [discriminate|].
  intros E. now rewrite IH.
Qed.

Lemma filter_truthy_idem (l : list string) :
  filter truthy (filter truthy l) = filter truthy l.
Proof.
  induction l as [|v l IH]; simpl; [reflexivity|].
  destruct (truthy v) eqn:T; simpl; [|assumption].
  rewrite T. now rewrite IH.
Qed.

Lemma stripIndexParam_eq (req : Request) :
  stripIndexParam req
  = new_Request
      (set_searchParams (req_url req)
         (delete "index" (searchParams (req_url req))
          ++ map (pair "index")
               (filter truthy (getAll "index" (searchParams (req_url req)))))%list)
      req.
Proof.
  unfold stripIndexParam. rewrite fold_keep, fold_append. reflexivity.
Qed.

Lemma stripIndexParam_idem (req : Request) :
  stripIndexParam (stripIndexParam req) = stripIndexParam req.
Proof.
  rewrite (stripIndexParam_eq req).
  rewrite stripIndexParam_eq. unfold new_Request, set_searchParams. simpl.
  rewrite delete_app, delete_idem, delete_pairs_same, app_nil_r.
  rewrite getAll_app, getAll_delete_same, getAll_pairs. simpl.
  now rewrite filter_truthy_idem.
Qed.

Lemma stripDataParam_idem (req : Request) :
  stripDataParam (stripDataParam req) = stripDataParam req.
Proof.
  unfold stripDataParam, new_Request, set_searchParams. simpl.
  now rewrite delete_idem.
Qed.

Lemma strip_commute (req : Request) :
  stripDataParam (stripIndexParam req) = stripIndexParam (stripDataParam req).
Proof.
  rewrite !stripIndexParam_eq.
  unfold stripDataParam, new_Request, set_searchParams. simpl.
  rewrite getAll_delete_other by discriminate.
  rewrite delete_app, delete_pairs_other by discriminate.
  now rewrite (delete_comm "_data" "index").
Qed.

(** X1. [stripIndexParam] is idempotent: applied to its own result it
    changes nothing. *)
Theorem stripIndexParam_idempotent (req : Request) :
  stripIndexParam (stripIndexParam req) = stripIndexParam req.
Proof. apply stripIndexParam_idem. Qed.

(** X2. The two transforms commute: stripping "_data" after "index" gives
    the same request as stripping "index" after "_data". *)
Theorem strip_transforms_commute (req : Request) :
  stripDataParam (stripIndexParam req) = stripIndexParam (stripDataParam req).
Proof. apply strip_commute. Qed.

(** X3. The normalization the entry points apply is idempotent: a request
    that was normalized once is left as it is by a second pass. *)
Theorem normalization_idempotent (req : Request) :
  stripDataParam (stripIndexParam (stripDataParam (stripIndexParam req)))
  = stripDataParam (stripIndexParam req).
Proof.
  rewrite <- (strip_commute (stripIndexParam req)).
  now rewrite stripIndexParam_idem, stripDataParam_idem.
Qed.

(** X4. A request with no "index" and no "_data" parameter keeps its list
    of name/value pairs through the normalization, pair by pair and in
    order.  (The text of the query is written anew all the same.) *)
Theorem nothing_to_strip (req : Request) :
  getAll "index" (searchParams (req_url req)) = [] ->
  getAll "_data" (searchParams (req_url req)) = [] ->
  searchParams (req_url (stripDataParam (stripIndexParam req)))
  = searchParams (req_url req).
Proof.
  intros I D.
  rewrite stripDataParam_searchParams, stripIndexParam_searchParams.
  rewrite I. simpl. rewrite app_nil_r.
  rewrite (delete_nothing "index" _ I).
  apply (delete_nothing "_data" _ D).
Qed.

(** X5. The parameters of the normalized request are the parameters other
    than "index" and "_data" in their order, followed by the non-empty
    "index" values as "index" parameters: the kept index parameters move
    behind all the others. *)
Theorem normalized_searchParams (req : Request) :
  searchParams (req_url (stripDataParam (stripIndexParam req)))
  = (filter (fun p => other_than "index" p && other_than "_data" p)
       (searchParams (req_url req))
     ++ map (pair "index")
          (filter truthy (getAll "index" (searchParams (req_url req)))))%list.
Proof.
  rewrite stripDataParam_searchParams, stripIndexParam_searchParams.
  rewrite delete_app, delete_pairs_other by discriminate.
  f_equal. unfold delete, other_than.
  induction (searchParams (req_url req)) as [|[k v] sp IH]; simpl; [reflexivity|].
  destruct (String.eqb k "index"); simpl; [assumption|].
  destruct (String.eqb k "_data"); simpl; [assumption|].
  now rewrite IH.
Qed.

(** X6. [stripIndexParam] loses nothing but the "index" parameters with an
    empty value: its parameters are a permutation of the others. *)
Theorem stripIndexParam_permutation (req : Request) :
  Permutation
    (searchParams (req_url (stripIndexParam req)))
    (filter (fun p => negb (empty_index p)) (searchParams (req_url req))).
Proof.
  rewrite stripIndexParam_searchParams.
  unfold delete, getAll, empty_index.
  induction (searchParams (req_url req)) as [|[k v] sp IH]; simpl; [constructor|].
  destruct (String.eqb_spec k "index") as [->|N]; simpl.
  - destruct (truthy v); simpl.
    + apply Permutation_sym, Permutation_cons_app, Permutation_sym, IH.
    + exact IH.
  - now constructor.
Qed.

Lemma nothing_to_strip_witness :
  searchParams (req_url (stripDataParam (stripIndexParam
    {| req_url := {| url_base := "http://localhost/a";
                     searchParams := [("q", "a b"); ("x", "~"); ("y", "");
                                      ("Index", "")];
                     url_hash := "#top" |};
       req_method := "PUT"; req_headers := []; req_body := Some "x" |})))
  = [("q", "a b"); ("x", "~"); ("y", ""); ("Index", "")].
Proof.
  apply (nothing_to_strip
    {| req_url := {| url_base := "http://localhost/a";
                     searchParams := [("q", "a b"); ("x", "~"); ("y", "");
                                      ("Index", "")];
                     url_hash := "#top" |};
       req_method := "PUT"; req_headers := []; req_body := Some "x" |});
    reflexivity.
Defined.

(** ** Further properties of the entry points *)

Lemma string_app_assoc (a b c : string) : (a ++ b) ++ c = a ++ b ++ c.
Proof. induction a as [|x a IH]; simpl; [reflexivity | now rewrite IH]. Qed.

Section MoreOnEntryPoints.

Variable json : Value -> Response.
Variable isRedirectResponse : Response -> bool.
Variable href : URL -> string.

Local Abbreviation run := (entry_point json isRedirectResponse href).


(** X8. Every Response an entry point throws is marked: it is a
    non-redirect Response the handler threw, with its X-Remix-Catch header
    set to "yes". *)
Theorem thrown_response_is_marked h ctx route ps req r :
  snd (run h ctx route ps req) = Throw (VResponse r) ->
  Headers_get "X-Remix-Catch" (headers r) = Some "yes" /\
  exists fn r0,
    handler_of h route = Some fn /\
    fn (handler_args ctx ps req) = Throw (VResponse r0) /\
    isRedirectResponse r0 = false /\
    r = set_header "X-Remix-Catch" "yes" r0.
Proof.
  destruct (handler_of h route) as [fn|] eqn:P.
  - rewrite (entry_present json isRedirectResponse href _ _ _ _ _ P). simpl.
    destruct (fn (handler_args ctx ps req)) as [res|e|] eqn:F; simpl.
    + destruct (is_undefined res); discriminate.
    + destruct e as [| | | | | |r0]; simpl; try discriminate.
      destruct (isRedirectResponse r0) eqn:R; [discriminate|].
      destruct (immutable_headers r0); [discriminate|].
      intros [= <-]. split; [apply Headers_get_set|].
      exists fn, r0. auto.
    + discriminate.
  - destruct h; simpl in P.
    + rewrite (action_absent json isRedirectResponse href _ _ _ _ P).
      discriminate.
    + destruct (loader_absent json isRedirectResponse href ctx route ps req P)
        as [message E].
      rewrite E. discriminate.
Qed.

(** X9. A redirect Response reaches the caller the same way whether the
    handler returned it or threw it: it is returned, untouched. *)
Theorem redirect_returned_or_thrown h ctx route ps req fn r :
  handler_of h route = Some fn ->
  isRedirectResponse r = true ->
  fn (handler_args ctx ps req) = Return (VResponse r) \/
  fn (handler_args ctx ps req) = Throw (VResponse r) ->
  snd (run h ctx route ps req) = Return (VResponse r).
Proof.
  intros P R F.
  rewrite (entry_present json isRedirectResponse href _ _ _ _ _ P). simpl.
  destruct F as [F|F]; rewrite F; simpl; [reflexivity | now rewrite R].
Qed.

(** X10. The error thrown for a missing loader tells the request method,
    the request URL and the route id. *)
Theorem missing_loader_message ctx route ps req :
  loader (module route) = None ->
  exists message,
    callRouteLoader json isRedirectResponse href ctx route ps req
    = ([], Throw (VError message)) /\
    mentions message (req_method req) /\
    mentions message (href (req_url req)) /\
    names_route message (id route).
Proof.
  intros A. unfold callRouteLoader. rewrite A. simpl.
  eexists. split; [reflexivity|]. split; [|split].
  - exists "You made a ". eexists. reflexivity.
  - exists ("You made a " ++ req_method req ++ " request to "). eexists.
    now rewrite !string_app_assoc.
  - exists ("You made a " ++ req_method req ++ " request to " ++
            href (req_url req) ++ " but did not provide " ++
            "a default component or `loader` for route ").
    eexists. now rewrite !string_app_assoc.
Qed.

End MoreOnEntryPoints.

(** X11. [json] is applied to nothing but a resolved value that is neither
    a Response nor [undefined]: when the handler does not resolve to such a
    value, the run is the same whatever [json] is. *)
Theorem json_only_wraps_data (json1 json2 : Value -> Response)
    isRedirectResponse href h ctx route ps req :
  (forall fn res,
     handler_of h route = Some fn ->
     fn (handler_args ctx ps req) = Return res ->
     isResponse res = true \/ res = VUndefined) ->
  entry_point json1 isRedirectResponse href h ctx route ps req
  = entry_point json2 isRedirectResponse href h ctx route ps req.
Proof.
  intros H.
  destruct (handler_of h route) as [fn|] eqn:P.
  - rewrite !(entry_present _ _ _ _ _ _ _ _ P). f_equal.
    destruct (fn (handler_args ctx ps req)) as [res|e|] eqn:F; simpl;
      try reflexivity.
    destruct (H fn res eq_refl F) as [R| ->]; [|reflexivity].
    now rewrite R.
  - destruct h; simpl in P.
    + now rewrite !(action_absent _ _ _ _ _ _ _ P).
    + simpl. unfold callRouteLoader. now rewrite P.
Qed.

(** X12. [isRedirectResponse] is consulted for nothing but a Response the
    handler threw: when the handler does not throw a Response, the run is
    the same whatever [isRedirectResponse] is. *)
Theorem redirect_test_only_on_thrown_response json
    (isRedirect1 isRedirect2 : Response -> bool) href h ctx route ps req :
  (forall fn e,
     handler_of h route = Some fn ->
     fn (handler_args ctx ps req) = Throw e ->
     isResponse e = false) ->
  entry_point json isRedirect1 href h ctx route ps req
  = entry_point json isRedirect2 href h ctx route ps req.
Proof.
  intros H.
  destruct (handler_of h route) as [fn|] eqn:P.
  - rewrite !(entry_present _ _ _ _ _ _ _ _ P). f_equal.
    destruct (fn (handler_args ctx ps req)) as [res|e|] eqn:F; simpl;
      try reflexivity.
    specialize (H fn e eq_refl F). unfold isResponse in H.
    now destruct (asResponse e).
  - destruct h; simpl in P.
    + now rewrite !(action_absent _ _ _ _ _ _ _ P).
    + simpl. unfold callRouteLoader. now rewrite P.
Qed.

(** ** A further property of extractData *)

Lemma all_chars_app (f : ascii -> bool) (a b : string) :
  all_chars f (a ++ b) = all_chars f a && all_chars f b.
Proof.
  induction a as [|c a IH]; simpl; [reflexivity|].
  now rewrite IH, andb_assoc.
Qed.

(** X13. The media type is matched with its case: a Content-Type without
    any lower-case letter is read as text, never as JSON. *)
Theorem extractData_is_case_sensitive (response : Response) (ct : string) :
  Headers_get "Content-Type" (headers response) = Some ct ->
  all_chars (fun c => negb (is_lower c)) ct = true ->
  extractData response = response_text response.
Proof.
  intros G U. unfold extractData. rewrite G.
  destruct (regex_test ct) eqn:T; [|now rewrite andb_false_r].
  apply regex_test_spec in T. destruct T as [pre [post [-> _]]].
  rewrite all_chars_app in U. apply andb_true_iff in U.
  destruct U as [_ U]. discriminate U.
Qed.

(** ** The further properties at concrete requests *)

Lemma thrown_response_is_marked_witness :
  Headers_get "X-Remix-Catch" (headers (set_header "X-Remix-Catch" "yes" teapot))
  = Some "yes" /\
  exists fn r0,
    handler_of the_action (route_of (Some (throws (VResponse teapot)))) = Some fn /\
    fn (handler_args VNull [] post_request) = Throw (VResponse r0) /\
    sample_isRedirectResponse r0 = false /\
    set_header "X-Remix-Catch" "yes" teapot = set_header "X-Remix-Catch" "yes" r0.
Proof.
  apply (thrown_response_is_marked sample_json sample_isRedirectResponse
           sample_href the_action VNull
           (route_of (Some (throws (VResponse teapot)))) [] post_request).
  reflexivity.
Defined.

Lemma redirect_returned_or_thrown_witness :
  snd (sample_run the_loader VNull (route_of (Some (returns (VResponse moved))))
         [] get_request)
  = Return (VResponse moved).
Proof.
  apply (redirect_returned_or_thrown sample_json sample_isRedirectResponse
           sample_href the_loader VNull
           (route_of (Some (returns (VResponse moved)))) [] get_request
           (fn := returns (VResponse moved)));
    [reflexivity | reflexivity | left; reflexivity].
Defined.

Lemma missing_loader_message_witness :
  exists message,
    callRouteLoader sample_json sample_isRedirectResponse sample_href
      VNull (route_of None) [] post_request
    = ([], Throw (VError message)) /\
    mentions message "POST" /\
    mentions message (sample_href example_url) /\
    names_route message "routes/items".
Proof.
  apply (missing_loader_message sample_json sample_isRedirectResponse
           sample_href VNull (route_of None) [] post_request).
  reflexivity.
Defined.

Lemma json_only_wraps_data_witness :
  entry_point sample_json sample_isRedirectResponse sample_href
    the_action VNull (route_of (Some (returns (VResponse teapot)))) [] post_request
  = entry_point (fun _ => moved) sample_isRedirectResponse sample_href
      the_action VNull (route_of (Some (returns (VResponse teapot)))) [] post_request.
Proof.
  apply json_only_wraps_data.
  intros fn res [= <-] [= <-]. left. reflexivity.
Defined.

Lemma redirect_test_only_on_thrown_response_witness :
  entry_point sample_json sample_isRedirectResponse sample_href
    the_loader VNull (route_of (Some (throws (VString "boom")))) [] get_request
  = entry_point sample_json (fun _ => true) sample_href
      the_loader VNull (route_of (Some (throws (VString "boom")))) [] get_request.
Proof.
  apply redirect_test_only_on_thrown_response.
  intros fn e [= <-] [= <-]. reflexivity.
Defined.

Lemma extractData_is_case_sensitive_witness :
  extractData {| status := 200;
                 headers := [("content-type", "APPLICATION/JSON")];
                 body := Some "{}";
                 immutable_headers := false |}
  = response_text {| status := 200;
                     headers := [("content-type", "APPLICATION/JSON")];
                     body := Some "{}";
                     immutable_headers := false |}.
Proof.
  apply (extractData_is_case_sensitive
           {| status := 200;
              headers := [("content-type", "APPLICATION/JSON")];
              body := Some "{}";
              immutable_headers := false |}
           (ct := "APPLICATION/JSON")); reflexivity.
Defined.
